(** * RoadExport: export of tabular records to CSV, JSON, JSON Lines and XML

    A shallow embedding of [src/roadexport/export.py] and the properties of
    its specification.  The Python standard-library calls the module makes
    ([csv.writer], [json.dumps], [str.replace], [str], [open]) are modelled
    next to the code that uses them; the platform's [strftime] is an
    interface ([Platform]).

    Text is modelled by [string]; a character is read as a code point below
    256.  Floating-point numbers are outside the model. *)

From Stdlib Require Import String Ascii List ZArith Lia Bool Arith.
From Stdlib Require Import DecimalString DecimalFacts DecimalPos DecimalN DecimalZ.
Import ListNotations.
Local Open Scope string_scope.

(** ** The Python runtime the module relies on *)

Module Py.

(** Exceptions: the [TypeError] raised by the standard library, and any
    other exception (a transformer's, the platform's), named by a tag.
    Messages are not modelled. *)
Inductive exn : Type :=
| TypeError
| Failure (tag : string).

(** The outcome of an expression: a value, or a raised exception. *)
Inductive res (A : Type) : Type :=
| Ok (a : A)
| Raise (e : exn).
Arguments Ok {A} a.
Arguments Raise {A} e.

Definition res_bind {A B : Type} (r : res A) (k : A -> res B) : res B :=
  match r with
  | Ok a => k a
  | Raise e => Raise e
  end.

(** A list comprehension whose element expression may raise: elements are
    evaluated left to right and the first exception propagates. *)
Fixpoint res_map {A B : Type} (f : A -> res B) (l : list A) : res (list B) :=
  match l with
  | [] => Ok []
  | x :: l' =>
      match f x with
      | Ok y =>
          match res_map f l' with
          | Ok ys => Ok (y :: ys)
          | Raise e => Raise e
          end
      | Raise e => Raise e
      end
  end.

(** Code that writes to a text sink ([io.StringIO], an open file): the text
    written so far is threaded through, and stays written when an exception
    is raised. *)
Definition IO (A : Type) : Type := string -> res A * string.

Definition ret {A : Type} (a : A) : IO A := fun out => (Ok a, out).

Definition bind {A B : Type} (m : IO A) (k : A -> IO B) : IO B :=
  fun out =>
    match m out with
    | (Ok a, out') => k a out'
    | (Raise e, out') => (Raise e, out')
    end.

Definition lift {A : Type} (r : res A) : IO A := fun out => (r, out).

(** [output.write(s)] *)
Definition write (s : string) : IO unit := fun out => (Ok tt, out ++ s).

Declare Scope io_scope.
Delimit Scope io_scope with io.
Notation "x <- m ;; k" := (bind m (fun x => k))
  (at level 100, m at next level, right associativity) : io_scope.
Notation "m ;; k" := (bind m (fun _ => k))
  (at level 100, right associativity) : io_scope.

(** Characters that cannot be written inside a string literal. *)
Definition LF : ascii := "010"%char.
Definition CR : ascii := "013"%char.
Definition TAB : ascii := "009"%char.
Definition BS : ascii := "008"%char.
Definition FF : ascii := "012"%char.
Definition DQUOTE : ascii := "034"%char.
Definition BACKSLASH : ascii := "092"%char.

Definition str1 (c : ascii) : string := String c EmptyString.

(** [sep.join(l)] *)
Fixpoint join (sep : string) (l : list string) : string :=
  match l with
  | [] => ""
  | [x] => x
  | x :: l' => x ++ sep ++ join sep l'
  end.

(** The text a list of pieces adds up to. *)
Definition cat (pieces : list string) : string :=
  fold_right String.append "" pieces.

(** [s.replace(old, new)] for a pattern [old] of one character, which is
    how the module calls it. *)
Fixpoint str_replace (old : ascii) (new : string) (s : string) : string :=
  match s with
  | EmptyString => EmptyString
  | String c s' =>
      if Ascii.eqb c old then new ++ str_replace old new s'
      else String c (str_replace old new s')
  end.

(** [k in l] for a list of strings. *)
Definition str_in (k : string) (l : list string) : bool :=
  existsb (String.eqb k) l.

(** [x or d] for an optional list [x]: [None] and the empty list are both
    falsy. *)
Definition or_list {A : Type} (x : option (list A)) (d : list A) : list A :=
  match x with
  | Some (a :: l) => a :: l
  | Some [] => d
  | None => d
  end.

(** The truth value of an optional list, as in [if x:]. *)
Definition truthy {A : Type} (x : option (list A)) : bool :=
  match x with
  | Some (_ :: _) => true
  | _ => false
  end.

(** [str(n)] for an integer. *)
Definition str_of_int (z : Z) : string := NilZero.string_of_int (Z.to_int z).

(** A [dict] with text keys: insertion order matters ([keys()], [items()]),
    so it is an association list; [get] finds the entry of a key. *)
Definition dict (V : Type) : Type := list (string * V).

Fixpoint dict_get {V : Type} (d : dict V) (k : string) : option V :=
  match d with
  | [] => None
  | (k', v) :: d' => if String.eqb k' k then Some v else dict_get d' k
  end.

Definition dict_keys {V : Type} (d : dict V) : list string := map fst d.

(** [d[k] = v]: the entry of [k] is replaced where it stands, a new key is
    added at the end. *)
Fixpoint dict_set {V : Type} (d : dict V) (k : string) (v : V) : dict V :=
  match d with
  | [] => [(k, v)]
  | (k', v') :: d' =>
      if String.eqb k' k then (k', v) :: d' else (k', v') :: dict_set d' k v
  end.

(** A naive [datetime.datetime]. *)
Record datetime : Type := mkDatetime {
  year : nat;
  month : nat;
  day : nat;
  hour : nat;
  minute : nat;
  second : nat;
  microsecond : nat
}.

(** [c * n]: the character repeated [n] times. *)
Fixpoint repeat_char (c : ascii) (n : nat) : string :=
  match n with
  | O => EmptyString
  | S n' => String c (repeat_char c n')
  end.

(** The decimal digits of [n], left-padded with zeros to [width]. *)
Definition zfill (width : nat) (n : nat) : string :=
  let s := NilZero.string_of_uint (Nat.to_uint n) in
  repeat_char "0" (width - String.length s) ++ s.

(** [str(d)] for a naive datetime: ISO format with a space separator, the
    microseconds shown only when they are not zero. *)
Definition datetime_str (d : datetime) : string :=
  zfill 4 (year d) ++ "-" ++ zfill 2 (month d) ++ "-" ++ zfill 2 (day d) ++ " "
  ++ zfill 2 (hour d) ++ ":" ++ zfill 2 (minute d) ++ ":" ++ zfill 2 (second d)
  ++ (if Nat.eqb (microsecond d) 0 then "" else "." ++ zfill 6 (microsecond d)).

(** The values a record field can hold.  [VOther text] is an object of any
    type that neither the formatter nor the JSON encoder knows (a decimal,
    a UUID, a set, ...), given by the text [str] returns for it. *)
#[local] Unset Elimination Schemes.
Inductive value : Type :=
| VNone
| VBool (b : bool)
| VInt (z : Z)
| VStr (s : string)
| VDatetime (d : datetime)
| VList (l : list value)
| VDict (d : list (string * value))
| VOther (text : string).
#[local] Set Elimination Schemes.

Definition record : Type := dict value.

End Py.
Export Py.

(** The platform's [strftime], which [datetime.strftime] calls. *)
Class Platform : Type := {
  strftime : datetime -> string -> res string
}.

(** ** [json.dumps] *)

Module Json.

(** One lowercase hexadecimal digit. *)
Definition hex_digit (n : nat) : ascii :=
  if Nat.ltb n 10 then ascii_of_nat (48 + n) else ascii_of_nat (87 + n).

(** The replacement of one character by the encoder with [ensure_ascii]
    (the default): the quote and the backslash are escaped, the five
    control characters with a short form use it, every other character
    outside the printable ASCII range becomes a [\u00XX] escape. *)
Definition escape_char (c : ascii) : string :=
  if Ascii.eqb c DQUOTE then String BACKSLASH (str1 DQUOTE)
  else if Ascii.eqb c BACKSLASH then String BACKSLASH (str1 BACKSLASH)
  else if Ascii.eqb c LF then String BACKSLASH "n"
  else if Ascii.eqb c CR then String BACKSLASH "r"
  else if Ascii.eqb c TAB then String BACKSLASH "t"
  else if Ascii.eqb c BS then String BACKSLASH "b"
  else if Ascii.eqb c FF then String BACKSLASH "f"
  else
    let n := nat_of_ascii c in
    if Nat.leb 32 n && Nat.leb n 126 then str1 c
    else String BACKSLASH
           ("u00" ++ String (hex_digit (n / 16)) (str1 (hex_digit (n mod 16)))).

Fixpoint escape_chars (s : string) : string :=
  match s with
  | EmptyString => EmptyString
  | String c s' => escape_char c ++ escape_chars s'
  end.

(** A text value as a JSON string. *)
Definition encode_string (s : string) : string :=
  String DQUOTE (escape_chars s) ++ str1 DQUOTE.

(** [indent * level] spaces after a newline, when an indent is given. *)
Definition spaces (n : nat) : string := repeat_char " " n.

Definition newline_indent (indent : option nat) (level : nat) : string :=
  match indent with
  | None => ""
  | Some n => String LF (spaces (n * level))
  end.

(** The separator between the items of an array or object: [", "] on one
    line, a comma and a new indented line otherwise. *)
Definition item_separator (indent : option nat) (level : nat) : string :=
  match indent with
  | None => ", "
  | Some _ => "," ++ newline_indent indent level
  end.

(** The text of a value.  An object the encoder does not know (a datetime,
    a [VOther]) is passed to [default]; with [default=str] it is encoded as
    the JSON string of its [str] text, which is what this function does for
    it ([json_dumps] raises instead when no [default] is given). *)
Fixpoint json_text (indent : option nat) (level : nat) (v : value) : string :=
  match v with
  | VNone => "null"
  | VBool true => "true"
  | VBool false => "false"
  | VInt z => str_of_int z
  | VStr s => encode_string s
  | VDatetime d => encode_string (datetime_str d)
  | VOther text => encode_string text
  | VList l =>
      match l with
      | [] => "[]"
      | _ =>
          "[" ++ newline_indent indent (S level)
          ++ join (item_separator indent (S level))
                  (map (json_text indent (S level)) l)
          ++ newline_indent indent level ++ "]"
      end
  | VDict d =>
      match d with
      | [] => "{}"
      | _ =>
          "{" ++ newline_indent indent (S level)
          ++ join (item_separator indent (S level))
                  (map (fun kv : string * value =>
                          let (k, x) := kv in
                          encode_string k ++ ": " ++ json_text indent (S level) x)
                       d)
          ++ newline_indent indent level ++ "}"
      end
  end.

(** The values the encoder handles without a [default]. *)
Fixpoint json_native (v : value) : bool :=
  match v with
  | VNone | VBool _ | VInt _ | VStr _ => true
  | VDatetime _ | VOther _ => false
  | VList l => forallb json_native l
  | VDict d => forallb (fun kv : string * value => let (_, x) := kv in json_native x) d
  end.

(** [json.dumps(v, indent=indent)] when [default_str] is false and
    [json.dumps(v, indent=indent, default=str)] when it is true. *)
Definition json_dumps (indent : option nat) (default_str : bool) (v : value)
  : res string :=
  if default_str || json_native v then Ok (json_text indent 0 v)
  else Raise TypeError.

End Json.
Export Json.

(** ** [csv.writer] with the default dialect *)

Module Csv.

(** A writer object: the dialect is the default one (quote character
    [DQUOTE], doubled quotes, minimal quoting, line terminator CR LF) with
    the given delimiter. *)
Record writer : Type := { w_delimiter : ascii }.

(** [csv.writer(output, delimiter=d)]: the delimiter must be a text of
    exactly one character, a [TypeError] is raised otherwise. *)
Definition csv_writer (d : string) : res writer :=
  match d with
  | String c EmptyString => Ok {| w_delimiter := c |}
  | _ => Raise TypeError
  end.

Definition lineterminator : string := String CR (str1 LF).

(** A character that makes the writer quote the field it stands in: the
    delimiter, the quote character, or a character of the line
    terminator. *)
Definition special (w : writer) (c : ascii) : bool :=
  Ascii.eqb c (w_delimiter w) || Ascii.eqb c DQUOTE
  || Ascii.eqb c CR || Ascii.eqb c LF.

Fixpoint needs_quotes (w : writer) (field : string) : bool :=
  match field with
  | EmptyString => false
  | String c s => special w c || needs_quotes w s
  end.

(** The characters of a field, each quote character doubled. *)
Fixpoint double_quotes (field : string) : string :=
  match field with
  | EmptyString => EmptyString
  | String c s =>
      if Ascii.eqb c DQUOTE then String DQUOTE (String DQUOTE (double_quotes s))
      else String c (double_quotes s)
  end.

Definition csv_field (w : writer) (field : string) : string :=
  if needs_quotes w field
  then String DQUOTE (double_quotes field) ++ str1 DQUOTE
  else field.

(** The fields of one row joined by the delimiter; a row made of a single
    empty field is written as a pair of quotes. *)
Definition csv_record (w : writer) (fields : list string) : string :=
  match fields with
  | [EmptyString] => String DQUOTE (str1 DQUOTE)
  | _ => join (str1 (w_delimiter w)) (map (csv_field w) fields)
  end.

(** [writer.writerow(fields)]: one write of the whole line. *)
Definition writerow (w : writer) (fields : list string) : IO unit :=
  write (csv_record w fields ++ lineterminator).

End Csv.
Export Csv.

(** ** The module [roadexport.export] *)

(** [ExportFormat] is an enumeration of [str] values: a member compares
    equal to its text, so the [format] field is the text itself and also
    ranges over values outside the enumeration. *)
Module ExportFormat.
Definition CSV : string := "csv".
Definition JSON : string := "json".
Definition JSONL : string := "jsonl".
Definition TSV : string := "tsv".
Definition XML : string := "xml".
End ExportFormat.

Record ExportConfig : Type := mkExportConfig {
  format : string;
  columns : option (list string);
  column_labels : option (dict string);
  delimiter : string;
  include_header : bool;
  date_format : string;
  null_value : string;
  encoding : string;
  batch_size : Z
}.

(** [ExportConfig()] *)
Definition default_config : ExportConfig :=
  {| format := ExportFormat.CSV;
     columns := None;
     column_labels := None;
     delimiter := ",";
     include_header := true;
     date_format := "%Y-%m-%d %H:%M:%S";
     null_value := "";
     encoding := "utf-8";
     batch_size := 1000 |}.

(** [ExportConfig(format=f)] *)
Definition config_with_format (f : string) : ExportConfig :=
  {| format := f;
     columns := columns default_config;
     column_labels := column_labels default_config;
     delimiter := delimiter default_config;
     include_header := include_header default_config;
     date_format := date_format default_config;
     null_value := null_value default_config;
     encoding := encoding default_config;
     batch_size := batch_size default_config |}.

(** The configuration with another [columns] field. *)
Definition set_columns (c : ExportConfig) (cols : option (list string))
  : ExportConfig :=
  {| format := format c;
     columns := cols;
     column_labels := column_labels c;
     delimiter := delimiter c;
     include_header := include_header c;
     date_format := date_format c;
     null_value := null_value c;
     encoding := encoding c;
     batch_size := batch_size c |}.


(** [duration_ms] is a float that the module never sets: only its default,
    zero, occurs. *)
Record ExportResult : Type := mkExportResult {
  success : bool;
  row_count : nat;
  byte_count : nat;
  duration_ms : Z;
  error : option string
}.

(** [ExportResult(success=True, row_count=n)] *)
Definition result_ok (n : nat) : ExportResult :=
  {| success := true; row_count := n; byte_count := 0; duration_ms := 0;
     error := None |}.


(** A [for row in data] loop that writes and counts the rows. *)
Fixpoint for_rows (body : record -> IO unit) (data : list record)
  (row_count : nat) : IO nat :=
  match data with
  | [] => ret row_count
  | row :: rest => (body row ;; for_rows body rest (S row_count))%io
  end.

(** [if flag: action] *)
Definition when (flag : bool) (action : IO unit) : IO unit :=
  if flag then action else ret tt.

Section Exporters.
Context {P : Platform}.

(** *** DataFormatter *)

(** [DataFormatter.format_value]: the tests on the type of the value, in
    the order of the source. *)
Definition format_value (config : ExportConfig) (v : value) : res string :=
  match v with
  | VNone => Ok (null_value config)
  | VDatetime d => strftime d (date_format config)
  | VBool b => Ok (if b then "true" else "false")
  | VList _ | VDict _ => json_dumps None false v
  | VInt z => Ok (str_of_int z)
  | VStr s => Ok s
  | VOther text => Ok text
  end.

(** [row.get(col)]: [None] for a missing key. *)
Definition row_get (row : record) (col : string) : value :=
  match dict_get row col with
  | Some v => v
  | None => VNone
  end.

(** [DataFormatter.format_row] *)
Definition format_row (config : ExportConfig) (row : record)
  (cols : list string) : res (list string) :=
  res_map (fun col => format_value config (row_get row col)) cols.

(** *** Column selection *)

(** [self.config.column_labels.get(c, c) if self.config.column_labels else c] *)
Definition label_of (config : ExportConfig) (c : string) : string :=
  match column_labels config with
  | Some (e :: m) =>
      match dict_get (e :: m) c with
      | Some l => l
      | None => c
      end
  | _ => c
  end.

Definition labels_of (config : ExportConfig) (cols : list string) : list string :=
  map (label_of config) cols.

(** [self.config.columns or list(data[0].keys())], for a non-empty [data]
    whose first record is [row0]. *)
Definition csv_columns (config : ExportConfig) (row0 : record) : list string :=
  or_list (columns config) (dict_keys row0).

(** [self.config.columns or (list(data[0].keys()) if data else [])] *)
Definition xml_columns (config : ExportConfig) (data : list record) : list string :=
  or_list (columns config)
    (match data with
     | row0 :: _ => dict_keys row0
     | [] => []
     end).

(** *** CSVExporter *)

(** [CSVExporter.export] *)
Definition CSVExporter_export (config : ExportConfig) (data : list record)
  : IO ExportResult :=
  match data with
  | [] => ret (result_ok 0)
  | row0 :: _ =>
      let cols := csv_columns config row0 in
      let labels := labels_of config cols in
      (w <- lift (csv_writer (delimiter config)) ;;
       when (include_header config) (writerow w labels) ;;
       n <- for_rows
              (fun row =>
                 formatted <- lift (format_row config row cols) ;;
                 writerow w formatted)
              data 0 ;;
       ret (result_ok n))%io
  end.

(** [CSVExporter.export_stream]: the rows the generator yields are given as
    a list. *)
Definition CSVExporter_export_stream (config : ExportConfig)
  (data_generator : list record) (cols : list string) : IO ExportResult :=
  (w <- lift (csv_writer (delimiter config)) ;;
   let labels := labels_of config cols in
   when (include_header config) (writerow w labels) ;;
   n <- for_rows
          (fun row =>
             formatted <- lift (format_row config row cols) ;;
             writerow w formatted)
          data_generator 0 ;;
   ret (result_ok n))%io.

(** *** JSONExporter *)

(** [{k: v for k, v in row.items() if k in self.config.columns}] *)
Definition filter_row (cols : list string) (row : record) : record :=
  filter (fun kv : string * value => str_in (fst kv) cols) row.

Definition config_columns (config : ExportConfig) : list string :=
  match columns config with
  | Some cols => cols
  | None => []
  end.

(** A list of records as the value [json.dumps] receives. *)
Definition records_value (data : list record) : value :=
  VList (map VDict data).

(** [JSONExporter.export] *)
Definition JSONExporter_export (config : ExportConfig) (data : list record)
  (pretty : bool) : IO ExportResult :=
  let indent := if pretty then Some 2 else None in
  let filtered :=
    if truthy (columns config)
    then map (filter_row (config_columns config)) data
    else data in
  (text <- lift (json_dumps indent true (records_value filtered)) ;;
   write text ;;
   ret (result_ok (List.length data)))%io.

(** [JSONExporter.export_jsonl] *)
Definition JSONExporter_export_jsonl (config : ExportConfig)
  (data : list record) : IO ExportResult :=
  (n <- for_rows
          (fun row =>
             let row :=
               if truthy (columns config)
               then filter_row (config_columns config) row
               else row in
             text <- lift (json_dumps None true (VDict row)) ;;
             write (text ++ str1 LF))
          data 0 ;;
   ret (result_ok n))%io.

(** *** XMLExporter *)

(** [value.replace("&", "&amp;").replace("<", "&lt;").replace(">", "&gt;")] *)
Definition xml_escape (text : string) : string :=
  str_replace ">" "&gt;" (str_replace "<" "&lt;" (str_replace "&" "&amp;" text)).

(** The [for col in columns] loop of one row. *)
Fixpoint xml_cells (config : ExportConfig) (row : record) (cols : list string)
  : IO unit :=
  match cols with
  | [] => ret tt
  | col :: rest =>
      (v <- lift (format_value config (row_get row col)) ;;
       let escaped := xml_escape v in
       write ("    <" ++ col ++ ">" ++ escaped ++ "</" ++ col ++ ">" ++ str1 LF) ;;
       xml_cells config row rest)%io
  end.

(** [XMLExporter.export] *)
Definition XMLExporter_export (config : ExportConfig)
  (root_element row_element : string) (data : list record) : IO ExportResult :=
  (write ("<?xml version=" ++ str1 DQUOTE ++ "1.0" ++ str1 DQUOTE
          ++ " encoding=" ++ str1 DQUOTE ++ encoding config ++ str1 DQUOTE
          ++ "?>" ++ str1 LF) ;;
   write ("<" ++ root_element ++ ">" ++ str1 LF) ;;
   let cols := xml_columns config data in
   n <- for_rows
          (fun row =>
             write ("  <" ++ row_element ++ ">" ++ str1 LF) ;;
             xml_cells config row cols ;;
             write ("  </" ++ row_element ++ ">" ++ str1 LF))
          data 0 ;;
   write ("</" ++ root_element ++ ">") ;;
   ret (result_ok n))%io.

(** *** ExportManager *)

(** A transformer is a callable from a record to a record, which may
    raise. *)
Definition transformer : Type := record -> res record.

Record ExportManager : Type := { transformers : list transformer }.

(** [ExportManager()] *)
Definition new_manager : ExportManager := {| transformers := [] |}.

(** [ExportManager.add_transformer] *)
Definition add_transformer (self : ExportManager) (fn : transformer)
  : ExportManager :=
  {| transformers := (transformers self ++ [fn])%list |}.

(** The inner loop of [_transform]: [for transformer in self.transformers:
    row = transformer(row)]. *)
Fixpoint apply_transformers (ts : list transformer) (row : record) : res record :=
  match ts with
  | [] => Ok row
  | t :: ts' => res_bind (t row) (apply_transformers ts')
  end.

(** A transformer that does not raise. *)
Definition pure_transformer (f : record -> record) : transformer :=
  fun row => Ok (f row).

(** [ExportManager._transform] *)
Definition _transform (self : ExportManager) (data : list record)
  : res (list record) :=
  match transformers self with
  | [] => Ok data
  | _ => res_map (apply_transformers (transformers self)) data
  end.

(** The configuration of a call: [config or default]. *)
Definition config_or (config : option ExportConfig) (default : ExportConfig)
  : ExportConfig :=
  match config with
  | Some c => c
  | None => default
  end.

(** [output = io.StringIO(); ...; return output.getvalue()]: the text
    written by [body] to a fresh buffer, or the exception it raised. *)
Definition getvalue {A : Type} (body : IO A) : res string :=
  match body "" with
  | (Ok _, text) => Ok text
  | (Raise e, _) => Raise e
  end.

(** [ExportManager.export_csv] *)
Definition export_csv (self : ExportManager) (data : list record)
  (config : option ExportConfig) : res string :=
  let config := config_or config default_config in
  getvalue (data' <- lift (_transform self data) ;;
            CSVExporter_export config data')%io.

(** [ExportManager.export_json] *)
Definition export_json (self : ExportManager) (data : list record)
  (config : option ExportConfig) (pretty : bool) : res string :=
  let config := config_or config (config_with_format ExportFormat.JSON) in
  getvalue (data' <- lift (_transform self data) ;;
            JSONExporter_export config data' pretty)%io.

(** [ExportManager.export_jsonl] *)
Definition export_jsonl (self : ExportManager) (data : list record)
  (config : option ExportConfig) : res string :=
  let config := config_or config (config_with_format ExportFormat.JSONL) in
  getvalue (data' <- lift (_transform self data) ;;
            JSONExporter_export_jsonl config data')%io.

(** [ExportManager.export_xml] *)
Definition export_xml (self : ExportManager) (data : list record)
  (config : option ExportConfig) : res string :=
  let config := config_or config (config_with_format ExportFormat.XML) in
  getvalue (data' <- lift (_transform self data) ;;
            XMLExporter_export config "data" "row" data')%io.





End Exporters.

(** The records of the scenarios of the specification. *)
Definition alice_bob : list record :=
  [ [("id", VInt 1); ("name", VStr "Alice")];
    [("id", VInt 2); ("name", VStr "Bob")] ].

(** A transformer that adds the field [full_name], made of the fields
    [first] and [last]. *)
Definition text_of (v : value) : string :=
  match v with
  | VStr s => s
  | _ => ""
  end.

Definition add_full_name (row : record) : record :=
  dict_set row "full_name"
    (VStr (text_of (row_get row "first") ++ " " ++ text_of (row_get row "last"))).

(** Two records with a first and a last name. *)
Definition people : list record :=
  [ [("first", VStr "Ada"); ("last", VStr "Lovelace")];
    [("first", VStr "Alan"); ("last", VStr "Turing")] ].


(** A platform for concrete evaluations: the directives [%Y], [%m], [%d],
    [%H], [%M], [%S] with zero-padded fields and [%%]; any other directive
    is left as written. *)
Fixpoint reference_strftime (d : datetime) (fmt : string) : string :=
  match fmt with
  | EmptyString => EmptyString
  | String c rest =>
      if Ascii.eqb c "%" then
        match rest with
        | EmptyString => "%"
        | String k rest' =>
            (if Ascii.eqb k "Y" then zfill 4 (year d)
             else if Ascii.eqb k "m" then zfill 2 (month d)
             else if Ascii.eqb k "d" then zfill 2 (day d)
             else if Ascii.eqb k "H" then zfill 2 (hour d)
             else if Ascii.eqb k "M" then zfill 2 (minute d)
             else if Ascii.eqb k "S" then zfill 2 (second d)
             else if Ascii.eqb k "%" then "%"
             else String "%" (str1 k))
            ++ reference_strftime d rest'
        end
      else String c (reference_strftime d rest)
  end.

Definition reference_platform : Platform :=
  {| strftime := fun d fmt => Ok (reference_strftime d fmt) |}.

(** ** JSON texts

    What it means for a text to be valid JSON: a reader of the JSON grammar
    (RFC 8259), restricted to integer numbers and to [\u] escapes below
    256, which is what the value model can hold.  It accepts no text that
    is not JSON. *)

Module JsonSyntax.

#[local] Unset Elimination Schemes.
#[local] Set Elimination Schemes.














(** [s.split(sep)] for a separator of one character. *)
Fixpoint split (sep : ascii) (s : string) : list string :=
  match s with
  | EmptyString => [EmptyString]
  | String c s' =>
      if Ascii.eqb c sep then EmptyString :: split sep s'
      else
        match split sep s' with
        | piece :: pieces => String c piece :: pieces
        | [] => [str1 c]
        end
  end.

End JsonSyntax.
Export JsonSyntax.



(** [c in s] for a character. *)
Fixpoint has_char (c : ascii) (s : string) : bool :=
  match s with
  | EmptyString => false
  | String c' s' => Ascii.eqb c' c || has_char c s'
  end.




(** ** Reading back the texts of the encoder *)






(** The records the JSON writers encode: filtered when a column list that
    is not empty is configured. *)
Definition json_rows (config : ExportConfig) (data : list record) : list record :=
  if truthy (columns config)
  then map (filter_row (config_columns config)) data
  else data.


(** ** The documents the specification describes *)

(** The escaping of one character of XML text. *)
Definition xml_escape_char (c : ascii) : string :=
  if Ascii.eqb c "&" then "&amp;"
  else if Ascii.eqb c "<" then "&lt;"
  else if Ascii.eqb c ">" then "&gt;"
  else str1 c.

(** The escaping of a text in one pass, character by character: no
    character of a replacement is escaped again. *)
Fixpoint xml_escape_one_pass (text : string) : string :=
  match text with
  | EmptyString => EmptyString
  | String c rest => xml_escape_char c ++ xml_escape_one_pass rest
  end.

(** A child element: the field name as the tag, the escaped text inside. *)
Definition xml_cell_text (cell : string * string) : string :=
  let (col, formatted) := cell in
  "    <" ++ col ++ ">" ++ xml_escape formatted ++ "</" ++ col ++ ">" ++ str1 LF.

(** A row element with one child for each column. *)
Definition xml_row_text (row_element : string) (cols cells : list string) : string :=
  "  <" ++ row_element ++ ">" ++ str1 LF
  ++ cat (map xml_cell_text (combine cols cells))
  ++ "  </" ++ row_element ++ ">" ++ str1 LF.

(** The declaration and the opening root tag. *)
Definition xml_prolog (config : ExportConfig) (root_element : string) : string :=
  "<?xml version=" ++ str1 DQUOTE ++ "1.0" ++ str1 DQUOTE
  ++ " encoding=" ++ str1 DQUOTE ++ encoding config ++ str1 DQUOTE
  ++ "?>" ++ str1 LF
  ++ "<" ++ root_element ++ ">" ++ str1 LF.

(** ** [csv.reader] with the default dialect

    The reader the [csv] module pairs with its writer, reading a whole
    text (as from a buffer opened with [newline=""]): the automaton of the
    module, one step per character.  It is used to state what the
    delimited output stands for. *)

Module CsvReader.

Inductive state : Type :=
| RecordStart
| FieldStart
| InField
| InQuoted
| QuoteSeen
| AfterCR.

(** What a character makes the reader do. *)
Inductive action : Type :=
| Append (next : state)
| Skip (next : state)
| EndField (next : state)
| EndRecord (next : state)
| EmptyRecord (next : state).

(** A character at the start of a field. *)
Definition step_field_start (d c : ascii) : action :=
  if Ascii.eqb c CR then EndRecord AfterCR
  else if Ascii.eqb c LF then EndRecord RecordStart
  else if Ascii.eqb c DQUOTE then Skip InQuoted
  else if Ascii.eqb c d then EndField FieldStart
  else Append InField.

(** A character at the start of a record. *)
Definition step_record_start (d c : ascii) : action :=
  if Ascii.eqb c CR then EmptyRecord AfterCR
  else if Ascii.eqb c LF then EmptyRecord RecordStart
  else step_field_start d c.

Definition step (d : ascii) (st : state) (c : ascii) : action :=
  match st with
  | RecordStart => step_record_start d c
  | AfterCR => if Ascii.eqb c LF then Skip RecordStart else step_record_start d c
  | FieldStart => step_field_start d c
  | InField =>
      if Ascii.eqb c CR then EndRecord AfterCR
      else if Ascii.eqb c LF then EndRecord RecordStart
      else if Ascii.eqb c d then EndField FieldStart
      else Append InField
  | InQuoted =>
      if Ascii.eqb c DQUOTE then Skip QuoteSeen else Append InQuoted
  | QuoteSeen =>
      if Ascii.eqb c DQUOTE then Append InQuoted
      else if Ascii.eqb c d then EndField FieldStart
      else if Ascii.eqb c CR then EndRecord AfterCR
      else if Ascii.eqb c LF then EndRecord RecordStart
      else Append InField
  end.

(** The records of a text: [field] holds the characters of the field being
    read and [fields] the fields of the record being read. *)
Fixpoint read (d : ascii) (st : state) (field : string) (fields : list string)
  (s : string) : list (list string) :=
  match s with
  | EmptyString =>
      match st with
      | RecordStart | AfterCR => []
      | _ => [(fields ++ [field])%list]
      end
  | String c s' =>
      match step d st c with
      | Append next => read d next (field ++ str1 c) fields s'
      | Skip next => read d next field fields s'
      | EndField next => read d next "" (fields ++ [field])%list s'
      | EndRecord next => (fields ++ [field])%list :: read d next "" [] s'
      | EmptyRecord next => [] :: read d next "" [] s'
      end
  end.

(** [list(csv.reader(io.StringIO(text, newline=""), delimiter=d))] *)
Definition csv_reader (d : ascii) (text : string) : list (list string) :=
  read d RecordStart "" [] text.

End CsvReader.
Export CsvReader.

(** A delimiter the reader can tell from the quote and the line ends. *)
Definition plain_delimiter (d : ascii) : bool :=
  negb (Ascii.eqb d DQUOTE) && negb (Ascii.eqb d CR) && negb (Ascii.eqb d LF).

(** A record with a delimiter, a line feed and a quote inside a value. *)
Definition tricky_rows : list record :=
  [ [("id", VInt 7);
     ("note", VStr ("a,b" ++ str1 LF ++ "c" ++ str1 DQUOTE ++ "d"))];
    [("id", VNone); ("note", VStr "")] ].

(** ** Notions for the properties of the writers *)


(** The configuration with another [include_header] field. *)
Definition set_include_header (c : ExportConfig) (flag : bool) : ExportConfig :=
  {| format := format c;
     columns := columns c;
     column_labels := column_labels c;
     delimiter := delimiter c;
     include_header := flag;
     date_format := date_format c;
     null_value := null_value c;
     encoding := encoding c;
     batch_size := batch_size c |}.

(** The configuration with another [delimiter] field. *)
Definition set_delimiter (c : ExportConfig) (d : string) : ExportConfig :=
  {| format := format c;
     columns := columns c;
     column_labels := column_labels c;
     delimiter := d;
     include_header := include_header c;
     date_format := date_format c;
     null_value := null_value c;
     encoding := encoding c;
     batch_size := batch_size c |}.

(** A record whose field [when] holds a list with a timestamp in it, which
    [json.dumps] cannot encode without a [default]. *)
Definition unencodable_row : record :=
  [("id", VInt 3); ("when", VList [VDatetime (mkDatetime 2024 1 2 3 4 5 0)])].

(** Every character of a text satisfies a test. *)
Fixpoint all_chars (p : ascii -> bool) (s : string) : bool :=
  match s with
  | EmptyString => true
  | String c s' => p c && all_chars p s'
  end.

(** A printable ASCII character (space to tilde), or a line feed. *)
Definition printable_or_lf (c : ascii) : bool :=
  let n := nat_of_ascii c in
  (Nat.leb 32 n && Nat.leb n 126) || Ascii.eqb c LF.

(** The header line of the delimited writers, when the header is on. *)
Definition csv_header (config : ExportConfig) (w : writer) (cols : list string)
  : string :=
  if include_header config
  then csv_record w (labels_of config cols) ++ lineterminator
  else "".

(** The lines of the delimited writers for a table of formatted cells. *)
Definition csv_lines (w : writer) (table : list (list string)) : string :=
  cat (map (fun cells => csv_record w cells ++ lineterminator) table).

(** * Properties *)

(** Case analysis on a character: one case for each of the 256. *)
Ltac each_char c := destruct c as [[] [] [] [] [] [] [] []].

(** ** Texts and sinks *)

Lemma append_nil_r (s : string) : s ++ "" = s.
Proof. induction s as [|c s IH]; simpl; [reflexivity | now rewrite IH]. Qed.

Lemma append_assoc (a b c : string) : (a ++ b) ++ c = a ++ (b ++ c).
Proof. induction a as [|x a IH]; simpl; [reflexivity | now rewrite IH]. Qed.


Lemma bind_ok {A B : Type} (m : IO A) (k : A -> IO B) (out out' : string) (a : A) :
  m out = (Ok a, out') -> bind m k out = k a out'.
Proof. intros H. unfold bind. now rewrite H. Qed.

(** A loop whose body writes one piece per row and never raises writes the
    pieces in the order of the rows and counts them. *)
Lemma for_rows_writes (body : record -> IO unit) (piece : record -> string)
  (data : list record) :
  (forall row out, In row data -> body row out = (Ok tt, out ++ piece row)) ->
  forall n out,
    for_rows body data n out
    = (Ok (n + List.length data), out ++ cat (map piece data)).
Proof.
  induction data as [|row rest IH]; intros Hbody n out; simpl.
  - unfold ret. now rewrite Nat.add_0_r, append_nil_r.
  - rewrite (bind_ok _ _ out (out ++ piece row) tt) by (apply Hbody; now left).
    rewrite IH by (intros; apply Hbody; now right).
    now rewrite append_assoc, Nat.add_succ_r.
Qed.

Lemma res_map_length {A B : Type} (f : A -> res B) (l : list A) (l' : list B) :
  res_map f l = Ok l' -> List.length l' = List.length l.
Proof.
  revert l'. induction l as [|x l IH]; simpl; intros l' H.
  - now inversion H.
  - destruct (f x); [|discriminate].
    destruct (res_map f l); [|discriminate].
    inversion H; subst. simpl. now rewrite (IH _ eq_refl).
Qed.

Lemma res_map_pure {A B : Type} (f : A -> res B) (g : A -> B) (l : list A) :
  (forall x, In x l -> f x = Ok (g x)) -> res_map f l = Ok (map g l).
Proof.
  induction l as [|x l IH]; simpl; intros H; [reflexivity|].
  rewrite (H x) by now left.
  rewrite IH by (intros; apply H; now right). reflexivity.
Qed.

(** ** The coordinator and unknown formats *)

Section Coordinator.
Context {P : Platform}.


End Coordinator.

(** ** DataFormatter *)

Section Formatter.
Context {P : Platform}.


End Formatter.

(** ** Column selection *)

Lemma label_of_spec (config : ExportConfig) (c : string) :
  label_of config c
  = match column_labels config with
    | Some m => match dict_get m c with Some l => l | None => c end
    | None => c
    end.
Proof.
  unfold label_of. destruct (column_labels config) as [[|e m]|]; reflexivity.
Qed.

(** C3 as stated fails for a configured column list that is empty: with
    one record of one field, the delimited and the XML writers use the
    field of the record, not the empty list. *)
Lemma column_resolution_empty_list_counterexample :
  columns (set_columns default_config (Some [])) = Some []
  /\ csv_columns (set_columns default_config (Some [])) [("a", VInt 1)] = ["a"]
  /\ csv_columns (set_columns default_config (Some [])) [("a", VInt 1)] <> []
  /\ xml_columns (set_columns default_config (Some [])) [[("a", VInt 1)]] <> [].
Proof. repeat split; discriminate. Qed.

(** C3, as the code has it.  A configured column list that is not empty is
    used as it is, in its order, by the delimited and the XML writers; with
    no configured list, or an empty one, the columns are the keys of the
    first record, in their order, and for an empty sequence of records
    there are none.  The label of a column is the one the label mapping
    gives, and the field name when it gives none or when there is no
    mapping. *)
Theorem column_resolution (config : ExportConfig) (row0 : record)
  (rest : list record) (cols : list string) :
  csv_columns config row0
  = match columns config with
    | Some (c :: cs) => c :: cs
    | Some [] | None => dict_keys row0
    end
  /\ xml_columns config (row0 :: rest)
     = match columns config with
       | Some (c :: cs) => c :: cs
       | Some [] | None => dict_keys row0
       end
  /\ xml_columns config []
     = match columns config with
       | Some (c :: cs) => c :: cs
       | Some [] | None => []
       end
  /\ labels_of config cols
     = map (fun f => match column_labels config with
                     | Some m =>
                         match dict_get m f with Some l => l | None => f end
                     | None => f
                     end) cols
  /\ List.length (labels_of config cols) = List.length cols.
Proof.
  unfold csv_columns, xml_columns, or_list.
  repeat split.
  - unfold labels_of. apply map_ext. apply label_of_spec.
  - unfold labels_of. apply length_map.
Qed.

(** ** The delimited writer *)

Section Delimited.
Context {P : Platform}.

(** C4. The buffered delimited writer, given no record, succeeds with a row
    count of zero and writes nothing, whatever the configuration says about
    the header; so does the in-memory export of an empty list. *)
Theorem csv_export_empty (config : ExportConfig) (out : string)
  (self : ExportManager) (oconfig : option ExportConfig) :
  CSVExporter_export config [] out = (Ok (result_ok 0), out)
  /\ success (result_ok 0) = true
  /\ row_count (result_ok 0) = 0
  /\ export_csv self [] oconfig = Ok "".
Proof.
  repeat split.
  unfold export_csv, _transform.
  destruct (transformers self); reflexivity.
Qed.


End Delimited.

Section DelimitedText.
Context {P : Platform}.

(** The rows loop of the delimited writers, when every cell formats: one
    line per row, made of the formatted cells. *)
Lemma for_rows_csv (w : writer) (config : ExportConfig) (cols : list string)
  (data : list record) :
  forall (table : list (list string)) (n : nat) (out : string),
    res_map (fun row => format_row config row cols) data = Ok table ->
    for_rows
      (fun row =>
         bind (lift (format_row config row cols)) (fun formatted =>
         writerow w formatted))
      data n out
    = (Ok (n + List.length data),
       out ++ cat (map (fun cells => csv_record w cells ++ lineterminator) table)).
Proof.
  induction data as [|row rest IH]; intros table n out H; simpl in H.
  - inversion H; subst. simpl. unfold ret.
    now rewrite Nat.add_0_r, append_nil_r.
  - destruct (format_row config row cols) as [cells|e] eqn:Hrow; [|discriminate].
    destruct (res_map _ rest) as [table'|e] eqn:Hrest; [|discriminate].
    inversion H; subst. simpl.
    unfold bind at 1. unfold bind at 1. unfold lift at 1. rewrite Hrow.
    unfold writerow, write.
    rewrite (IH table' (S n) _ eq_refl).
    now rewrite append_assoc, Nat.add_succ_r.
Qed.

(** The text the buffered delimited writer adds to the sink for a list of
    records that is not empty, when the delimiter is one character and
    every cell formats. *)
Lemma CSVExporter_export_text (config : ExportConfig) (row0 : record)
  (rest : list record) (d : ascii) (table : list (list string)) (out : string) :
  delimiter config = str1 d ->
  res_map (fun row => format_row config row (csv_columns config row0))
          (row0 :: rest) = Ok table ->
  CSVExporter_export config (row0 :: rest) out
  = (Ok (result_ok (S (List.length rest))),
     out ++ (if include_header config
             then csv_record {| w_delimiter := d |}
                    (labels_of config (csv_columns config row0)) ++ lineterminator
             else "")
         ++ cat (map (fun cells =>
                        csv_record {| w_delimiter := d |} cells ++ lineterminator)
                     table)).
Proof.
  intros Hd Htable. unfold CSVExporter_export. rewrite Hd.
  unfold bind at 1. cbn [lift csv_writer str1].
  unfold bind at 1.
  destruct (include_header config); cbn [when].
  - unfold writerow at 1, write at 1.
    unfold bind at 1.
    rewrite (for_rows_csv _ _ _ _ table 0 _ Htable).
    cbn [ret Nat.add List.length]. now rewrite !append_assoc.
  - unfold ret at 1. unfold bind at 1.
    rewrite (for_rows_csv _ _ _ _ table 0 _ Htable).
    cbn [ret Nat.add List.length]. reflexivity.
Qed.


End DelimitedText.

(** ** An empty column list *)

Lemma for_rows_ext (body1 body2 : record -> IO unit) (data : list record) :
  (forall row out, body1 row out = body2 row out) ->
  forall n out, for_rows body1 data n out = for_rows body2 data n out.
Proof.
  intros H. induction data as [|row rest IH]; intros n out; simpl; [reflexivity|].
  unfold bind. rewrite H. destruct (body2 row out) as [[[]|e] out']; [apply IH | reflexivity].
Qed.

Section EmptyColumns.
Context {P : Platform}.



End EmptyColumns.

(** ** The transform pipeline *)

Lemma res_map_ok_id {A : Type} (l : list A) : res_map (fun x => Ok x) l = Ok l.
Proof. induction l as [|x l IH]; simpl; [reflexivity | now rewrite IH]. Qed.

Lemma apply_transformers_pure (fs : list (record -> record)) (row : record) :
  apply_transformers (map pure_transformer fs) row
  = Ok (fold_left (fun acc f => f acc) fs row).
Proof.
  revert row. induction fs as [|f fs IH]; intros row; simpl; [reflexivity|].
  apply IH.
Qed.

Lemma transform_spec (self : ExportManager) (data : list record) :
  _transform self data = res_map (apply_transformers (transformers self)) data.
Proof.
  unfold _transform. destruct (transformers self) as [|t ts]; [|reflexivity].
  simpl. symmetry. apply res_map_ok_id.
Qed.

Lemma transform_pure (fs : list (record -> record)) (data : list record) :
  _transform {| transformers := map pure_transformer fs |} data
  = Ok (map (fun row => fold_left (fun acc f => f acc) fs row) data).
Proof.
  rewrite transform_spec. cbn [transformers].
  apply res_map_pure. intros row _. apply apply_transformers_pure.
Qed.

Lemma res_map_nth {A B : Type} (f : A -> res B) (l : list A) (l' : list B) :
  res_map f l = Ok l' ->
  forall i x, nth_error l i = Some x ->
  exists y, nth_error l' i = Some y /\ f x = Ok y.
Proof.
  revert l'. induction l as [|a l IH]; simpl; intros l' H i x Hi.
  - destruct i; discriminate.
  - destruct (f a) as [b|] eqn:Hb; [|discriminate].
    destruct (res_map f l) as [bs|]; [|discriminate].
    inversion H; subst.
    destruct i as [|i]; simpl in *.
    + inversion Hi; subst. now exists b.
    + now apply (IH bs eq_refl).
Qed.

Section Pipeline.
Context {P : Platform}.

(** C6. With no transformer registered the pipeline returns its input.
    Registration appends, and the pipeline applies the transformers in
    that order to each record, the result of one given to the next; it
    keeps the number and the order of the records: record [i] of the
    result is record [i] of the input, transformed.  The delimited export
    runs the pipeline first and formats its result, so with no configured
    column list its columns are the keys of the first transformed record:
    the header shows their labels and each line the cells of these
    columns. *)
Theorem transform_pipeline (self : ExportManager) (data : list record)
  (fs : list (record -> record)) :
  _transform new_manager data = Ok data
  /\ (forall fn, transformers (add_transformer self fn)
                 = (transformers self ++ [fn])%list)
  /\ _transform self data = res_map (apply_transformers (transformers self)) data
  /\ _transform {| transformers := map pure_transformer fs |} data
     = Ok (map (fun row => fold_left (fun acc f => f acc) fs row) data)
  /\ (forall data', _transform self data = Ok data' ->
        List.length data' = List.length data
        /\ forall i row, nth_error data i = Some row ->
             exists row', nth_error data' i = Some row'
                          /\ apply_transformers (transformers self) row = Ok row')
  /\ (forall config,
        export_csv self data (Some config)
        = res_bind (_transform self data)
            (fun data' => getvalue (CSVExporter_export config data')))
  /\ (forall config row0 rest d table,
        _transform self data = Ok (row0 :: rest) ->
        truthy (columns config) = false ->
        delimiter config = str1 d ->
        res_map (fun row => format_row config row (dict_keys row0)) (row0 :: rest)
        = Ok table ->
        export_csv self data (Some config)
        = Ok ((if include_header config
               then csv_record {| w_delimiter := d |}
                      (labels_of config (dict_keys row0)) ++ lineterminator
               else "")
              ++ cat (map (fun cells =>
                             csv_record {| w_delimiter := d |} cells
                             ++ lineterminator)
                          table))
        /\ List.length table = List.length data).
Proof.
  split; [reflexivity|].
  split; [reflexivity|].
  split; [apply transform_spec|].
  split; [apply transform_pure|].
  split.
  { intros data' H. rewrite transform_spec in H. split.
    - now apply res_map_length in H.
    - intros i row Hi. exact (res_map_nth _ _ _ H i row Hi). }
  split.
  { intros config. unfold export_csv, getvalue, bind, lift. cbn [config_or].
    destruct (_transform self data); reflexivity. }
  intros config row0 rest d table Ht Hc Hd Htable.
  assert (Hcols : csv_columns config row0 = dict_keys row0).
  { unfold csv_columns. destruct (columns config) as [[|c cs]|];
      [reflexivity | discriminate | reflexivity]. }
  split.
  - unfold export_csv, getvalue. cbn [config_or].
    unfold bind, lift. rewrite Ht.
    rewrite <- Hcols in Htable.
    rewrite (CSVExporter_export_text config row0 rest d table "" Hd Htable).
    rewrite Hcols. reflexivity.
  - apply res_map_length in Htable. rewrite Htable.
    rewrite transform_spec in Ht. now apply res_map_length in Ht.
Qed.

End Pipeline.

(** ** The XML writer *)

Lemma str_replace_app (old : ascii) (new a b : string) :
  str_replace old new (a ++ b) = str_replace old new a ++ str_replace old new b.
Proof.
  induction a as [|c a IH]; simpl; [reflexivity|].
  destruct (Ascii.eqb c old); simpl; rewrite IH; [|reflexivity].
  now rewrite append_assoc.
Qed.

(** Escaping the ampersand first and the angle brackets after it is the
    same as escaping each character once. *)
Lemma xml_escape_one_pass_eq (text : string) :
  xml_escape text = xml_escape_one_pass text.
Proof.
  unfold xml_escape.
  induction text as [|c text IH]; [reflexivity|].
  cbn [str_replace xml_escape_one_pass]. unfold xml_escape_char.
  destruct (Ascii.eqb_spec c "&") as [->|Hamp].
  - rewrite !str_replace_app, IH. reflexivity.
  - cbn [str_replace].
    destruct (Ascii.eqb_spec c "<") as [->|Hlt].
    + rewrite !str_replace_app, IH. reflexivity.
    + cbn [str_replace].
      destruct (Ascii.eqb_spec c ">") as [->|Hgt].
      * rewrite IH. reflexivity.
      * rewrite IH. reflexivity.
Qed.

Section Xml.
Context {P : Platform}.

(** The cells loop of one row, when every cell formats. *)
Lemma xml_cells_text (config : ExportConfig) (row : record) (cols : list string) :
  forall (cells : list string) (out : string),
    format_row config row cols = Ok cells ->
    xml_cells config row cols out
    = (Ok tt, out ++ cat (map xml_cell_text (combine cols cells))).
Proof.
  unfold format_row.
  induction cols as [|col cols IH]; intros cells out H; simpl in H.
  - injection H as <-. simpl. unfold ret. now rewrite append_nil_r.
  - destruct (format_value config (row_get row col)) as [v|e] eqn:Hv; [|discriminate].
    destruct (res_map _ cols) as [vs|e] eqn:Hvs; [|discriminate].
    injection H as <-. cbn [xml_cells].
    unfold bind at 1. unfold lift at 1. rewrite Hv.
    unfold bind at 1. unfold write at 1.
    rewrite (IH vs _ eq_refl).
    cbn [combine map cat fold_right xml_cell_text].
    now rewrite !append_assoc.
Qed.



End Xml.

(** ** Reading back what the encoder writes *)

(** *** Numbers *)




Lemma str_of_int_cases (z : Z) :
  (z = 0%Z /\ str_of_int z = "0")
  \/ (exists p, z = Z.pos p
                /\ str_of_int z = NilEmpty.string_of_uint (Pos.to_uint p))
  \/ (exists p, z = Z.neg p
                /\ str_of_int z = String "-" (NilEmpty.string_of_uint (Pos.to_uint p))).
Proof.
  unfold str_of_int.
  destruct z as [|p|p]; cbn [Z.to_int NilZero.string_of_int].
  - left. split; reflexivity.
  - right; left. exists p. split; [reflexivity|].
    unfold NilZero.string_of_uint.
    destruct (Pos.to_uint p) eqn:E; try reflexivity.
    now apply DecimalPos.Unsigned.to_uint_nonnil in E.
  - right; right. exists p. split; [reflexivity|].
    unfold NilZero.string_of_uint.
    destruct (Pos.to_uint p) eqn:E; try reflexivity.
    now apply DecimalPos.Unsigned.to_uint_nonnil in E.
Qed.





(** *** Strings *)





Lemma has_char_app (c : ascii) (a b : string) :
  has_char c (a ++ b) = has_char c a || has_char c b.
Proof.
  induction a as [|x a IH]; [reflexivity|].
  cbn [String.append has_char]. now rewrite IH, orb_assoc.
Qed.


(** *** Values *)

(** Induction on values, with the property known for the items of a list
    and for the values of a mapping. *)
Lemma value_ind (Q : value -> Prop) :
  Q VNone ->
  (forall b, Q (VBool b)) ->
  (forall z, Q (VInt z)) ->
  (forall s, Q (VStr s)) ->
  (forall d, Q (VDatetime d)) ->
  (forall l, Forall Q l -> Q (VList l)) ->
  (forall d, Forall (fun kv : string * value => Q (snd kv)) d -> Q (VDict d)) ->
  (forall text, Q (VOther text)) ->
  forall v, Q v.
Proof.
  intros HNone HBool HInt HStr HDate HList HDict HOther.
  fix IH 1. intros [ |b|z|s|d|l|d|text].
  - exact HNone.
  - apply HBool.
  - apply HInt.
  - apply HStr.
  - apply HDate.
  - apply HList. revert l. fix IHl 1. intros [|x l].
    + constructor.
    + constructor; [apply IH | apply IHl].
  - apply HDict. revert d. fix IHd 1. intros [|[k x] d].
    + constructor.
    + constructor; [apply IH | apply IHd].
  - apply HOther.
Qed.

















Lemma join_cons_cons (sep a b : string) (l : list string) :
  join sep (a :: b :: l) = a ++ sep ++ join sep (b :: l).
Proof. reflexivity. Qed.





(** *** Enough fuel *)





(** *** Lines *)







(** *** The JSON writers *)




(** ** The scenarios, evaluated *)

(** The default pattern on the reference platform, for a fixed timestamp. *)
Lemma format_value_reference_timestamp :
  format_value (P := reference_platform) default_config
    (VDatetime (mkDatetime 2024 1 2 3 4 5 0))
  = Ok "2024-01-02 03:04:05".
Proof. reflexivity. Qed.



(** A transformer adds [full_name]; with no configured column list the
    field is a column of the delimited export. *)
Lemma transform_pipeline_witness :
  export_csv (P := reference_platform)
    {| transformers := [pure_transformer add_full_name] |} people
    (Some default_config)
  = Ok ("first,last,full_name" ++ lineterminator
        ++ "Ada,Lovelace,Ada Lovelace" ++ lineterminator
        ++ "Alan,Turing,Alan Turing" ++ lineterminator).
Proof.
  destruct (transform_pipeline (P := reference_platform)
              {| transformers := [pure_transformer add_full_name] |} people
              [add_full_name])
    as (_ & _ & _ & _ & _ & _ & H).
  destruct (H default_config
              [("first", VStr "Ada"); ("last", VStr "Lovelace");
               ("full_name", VStr "Ada Lovelace")]
              [[("first", VStr "Alan"); ("last", VStr "Turing");
                ("full_name", VStr "Alan Turing")]]
              ","%char
              [["Ada"; "Lovelace"; "Ada Lovelace"];
               ["Alan"; "Turing"; "Alan Turing"]]
              eq_refl eq_refl eq_refl eq_refl)
    as [Hexport _].
  exact Hexport.
Defined.




(** * Further properties of the module *)

(** ** Writers only append *)







Section Appending.
Context {P : Platform}.



End Appending.

(** ** What the writers return *)



Section Results.
Context {P : Platform}.







End Results.

(** ** The cells of a row *)

Lemma res_map_ext {A B : Type} (f g : A -> res B) (l : list A) :
  (forall x, In x l -> f x = g x) -> res_map f l = res_map g l.
Proof.
  induction l as [|x l IH]; intros H; [reflexivity|].
  cbn [res_map]. rewrite (H x) by now left.
  rewrite IH by (intros; apply H; now right). reflexivity.
Qed.

Section Cells.
Context {P : Platform}.

(** X4. [format_row] gives one cell per column, in the order of the
    columns; the cell of a column the record has no field for is the
    configured null token; and the cells only depend on the fields the
    columns name, so fields outside the columns are ignored. *)
Theorem format_row_cells (config : ExportConfig) (row row' : record)
  (cols : list string) :
  (forall cells, format_row config row cols = Ok cells ->
     List.length cells = List.length cols
     /\ forall i col, nth_error cols i = Some col ->
          exists cell, nth_error cells i = Some cell
                       /\ format_value config (row_get row col) = Ok cell
                       /\ (dict_get row col = None -> cell = null_value config))
  /\ ((forall col, In col cols -> dict_get row col = dict_get row' col) ->
      format_row config row cols = format_row config row' cols).
Proof.
  split.
  - intros cells H. unfold format_row in H. split.
    + now apply res_map_length in H.
    + intros i col Hi.
      destruct (res_map_nth _ _ _ H i col Hi) as (cell & Hcell & Hv).
      exists cell. split; [assumption|]. split; [assumption|].
      intros Hmiss. unfold row_get in Hv. rewrite Hmiss in Hv.
      cbn in Hv. now injection Hv as <-.
  - intros H. unfold format_row. apply res_map_ext.
    intros c Hc. unfold row_get. now rewrite (H c Hc).
Qed.

End Cells.

(** ** Buffered and streaming *)

Lemma csv_writer_one_char (d : string) :
  String.length d <> 1 -> csv_writer d = Raise TypeError.
Proof.
  destruct d as [|c [|c' d]]; cbn; intros H; try reflexivity. congruence.
Qed.

Section Streaming.
Context {P : Platform}.

(** For a list of records that is not empty, the buffered delimited writer
    does what the streaming writer does when it is given the columns the
    buffered writer selects: same text, same result, same exception. *)
Lemma buffered_is_streaming (config : ExportConfig) (row0 : record)
  (rest : list record) (out : string) :
  CSVExporter_export config (row0 :: rest) out
  = CSVExporter_export_stream config (row0 :: rest) (csv_columns config row0) out.
Proof. reflexivity. Qed.

(** X6. With a delimiter that is not exactly one character the delimited
    writers raise [TypeError] before they write anything, header included:
    the streaming writer for every input, the buffered writer for every
    list that is not empty.  For the empty list the buffered writer returns
    its success before it looks at the delimiter. *)
Theorem bad_delimiter_raises (config : ExportConfig) (row0 : record)
  (rest data : list record) (cols : list string) (out : string) :
  String.length (delimiter config) <> 1 ->
  CSVExporter_export config (row0 :: rest) out = (Raise TypeError, out)
  /\ CSVExporter_export_stream config data cols out = (Raise TypeError, out)
  /\ CSVExporter_export config [] out = (Ok (result_ok 0), out)
  /\ export_csv new_manager (row0 :: rest) (Some config) = Raise TypeError.
Proof.
  intros H. apply csv_writer_one_char in H.
  unfold export_csv, getvalue, CSVExporter_export, CSVExporter_export_stream.
  cbn [config_or _transform new_manager transformers].
  unfold bind, lift. rewrite H. repeat split.
Qed.

(** The rows loop of the delimited writers stops at the first row with a
    cell that does not format; the lines of the rows before it are
    written. *)
Lemma for_rows_csv_raise (w : writer) (config : ExportConfig)
  (cols : list string) (pre : list record) (bad : record)
  (post : list record) (e : exn) :
  forall (table : list (list string)) (n : nat) (out : string),
    res_map (fun row => format_row config row cols) pre = Ok table ->
    format_row config bad cols = Raise e ->
    for_rows
      (fun row =>
         bind (lift (format_row config row cols)) (fun formatted =>
         writerow w formatted))
      (pre ++ bad :: post) n out
    = (Raise e, out ++ csv_lines w table).
Proof.
  induction pre as [|row pre IH]; intros table n out Hpre Hbad; cbn in Hpre.
  - injection Hpre as <-. cbn [app for_rows].
    unfold bind, lift. rewrite Hbad. unfold csv_lines. cbn.
    now rewrite append_nil_r.
  - destruct (format_row config row cols) as [cells|e'] eqn:Hrow; [|discriminate].
    destruct (res_map _ pre) as [table'|e'] eqn:Hrest; [|discriminate].
    injection Hpre as <-. cbn [app for_rows].
    unfold bind at 1. unfold bind at 1. unfold lift at 1. rewrite Hrow.
    unfold writerow, write.
    rewrite (IH table' (S n) _ eq_refl Hbad).
    unfold csv_lines. cbn [map cat fold_right].
    now rewrite append_assoc.
Qed.

(** X7. When a cell of some row does not format, the streaming delimited
    writer raises the exception of that cell, and the sink keeps what was
    written before: the header (when it is on) and the lines of the rows
    that come before the failing one.  Nothing of the failing row or of the
    rows after it is written. *)
Theorem stream_keeps_rows_before_failure (config : ExportConfig)
  (cols : list string) (pre : list record) (bad : record)
  (post : list record) (d : ascii) (table : list (list string)) (e : exn)
  (out : string) :
  delimiter config = str1 d ->
  res_map (fun row => format_row config row cols) pre = Ok table ->
  format_row config bad cols = Raise e ->
  CSVExporter_export_stream config (pre ++ bad :: post) cols out
  = (Raise e,
     out ++ csv_header config {| w_delimiter := d |} cols
         ++ csv_lines {| w_delimiter := d |} table)
  /\ List.length table = List.length pre.
Proof.
  intros Hd Hpre Hbad. split; [|now apply res_map_length in Hpre].
  unfold CSVExporter_export_stream. rewrite Hd.
  unfold bind at 1. cbn [lift csv_writer str1].
  unfold bind at 1. unfold csv_header.
  destruct (include_header config); cbn [when].
  - unfold writerow at 1, write at 1. unfold bind at 1.
    rewrite (for_rows_csv_raise _ _ _ _ _ _ _ table 0 _ Hpre Hbad).
    now rewrite !append_assoc.
  - unfold ret at 1. unfold bind at 1.
    now rewrite (for_rows_csv_raise _ _ _ _ _ _ _ table 0 _ Hpre Hbad).
Qed.

End Streaming.



(** ** Column filtering of the JSON writers *)



(** ** The in-memory JSON exports *)



(** ** The escaping of XML text *)

Lemma xml_escape_char_no_bracket (c : ascii) :
  has_char "<" (xml_escape_char c) = false
  /\ has_char ">" (xml_escape_char c) = false.
Proof.
  unfold xml_escape_char.
  destruct (Ascii.eqb_spec c "&"); [split; reflexivity|].
  destruct (Ascii.eqb_spec c "<") as [|Hlt]; [split; reflexivity|].
  destruct (Ascii.eqb_spec c ">") as [|Hgt]; [split; reflexivity|].
  cbn [str1 has_char]. rewrite orb_false_r, orb_false_r.
  split; now apply Ascii.eqb_neq.
Qed.

(** The escape of a character is not empty, and starts with an ampersand
    exactly when the character is one of the three that are escaped. *)
Lemma xml_escape_char_cases (c : ascii) :
  (c = "&"%char /\ xml_escape_char c = "&amp;")
  \/ (c = "<"%char /\ xml_escape_char c = "&lt;")
  \/ (c = ">"%char /\ xml_escape_char c = "&gt;")
  \/ (c <> "&"%char /\ xml_escape_char c = str1 c).
Proof.
  unfold xml_escape_char.
  destruct (Ascii.eqb_spec c "&") as [->|Hamp]; [now left|].
  destruct (Ascii.eqb_spec c "<") as [->|Hlt]; [right; now left|].
  destruct (Ascii.eqb_spec c ">") as [->|Hgt]; [right; right; now left|].
  right; right; right. now split.
Qed.

Lemma xml_escape_one_pass_injective (a : string) :
  forall b, xml_escape_one_pass a = xml_escape_one_pass b -> a = b.
Proof.
  induction a as [|x a IH]; intros [|y b] H; cbn [xml_escape_one_pass] in H.
  - reflexivity.
  - destruct (xml_escape_char_cases y) as [[_ E]|[[_ E]|[[_ E]|[_ E]]]];
      rewrite E in H; discriminate H.
  - destruct (xml_escape_char_cases x) as [[_ E]|[[_ E]|[[_ E]|[_ E]]]];
      rewrite E in H; discriminate H.
  - destruct (xml_escape_char_cases x) as [[Hx Ex]|[[Hx Ex]|[[Hx Ex]|[Hx Ex]]]];
      destruct (xml_escape_char_cases y) as [[Hy Ey]|[[Hy Ey]|[[Hy Ey]|[Hy Ey]]]];
      rewrite Ex, Ey in H; cbn [String.append str1] in H;
      first [ discriminate H
            | injection H as H; subst x y; f_equal; now apply IH
            | injection H as Hc H; subst; first [congruence | f_equal; now apply IH] ].
Qed.

(** X11. The escaped text of a cell holds no angle bracket, so it cannot
    open or close a tag; and escaping loses nothing: two different texts
    never have the same escape. *)
Theorem xml_escape_safe (text text' : string) :
  has_char "<" (xml_escape text) = false
  /\ has_char ">" (xml_escape text) = false
  /\ (xml_escape text = xml_escape text' -> text = text').
Proof.
  rewrite !xml_escape_one_pass_eq.
  split; [|split].
  - induction text as [|c text IH]; [reflexivity|].
    cbn [xml_escape_one_pass]. rewrite has_char_app, IH.
    now rewrite (proj1 (xml_escape_char_no_bracket c)).
  - induction text as [|c text IH]; [reflexivity|].
    cbn [xml_escape_one_pass]. rewrite has_char_app, IH.
    now rewrite (proj2 (xml_escape_char_no_bracket c)).
  - apply xml_escape_one_pass_injective.
Qed.

(** ** Registering transformers *)

Lemma apply_transformers_app (ts : list transformer) (fn : transformer)
  (row : record) :
  apply_transformers (ts ++ [fn]) row = res_bind (apply_transformers ts row) fn.
Proof.
  revert row. induction ts as [|t ts IH]; intros row; cbn [app apply_transformers].
  - unfold res_bind. now destruct (fn row).
  - unfold res_bind at 1 3. destruct (t row); [apply IH | reflexivity].
Qed.

Lemma res_map_compose {A B C : Type} (f : A -> res B) (g : B -> res C)
  (l : list A) :
  forall out,
    res_map (fun x => res_bind (f x) g) l = Ok out
    <-> exists mid, res_map f l = Ok mid /\ res_map g mid = Ok out.
Proof.
  induction l as [|x l IH]; intros out; cbn [res_map].
  - split.
    + intros [= <-]. now exists [].
    + intros (mid & [= <-] & H). exact H.
  - split.
    + intros H. unfold res_bind at 1 in H.
      destruct (f x) as [y|e]; [|discriminate].
      destruct (g y) as [z|e] eqn:Hz; [|discriminate].
      destruct (res_map (fun x0 => res_bind (f x0) g) l) as [zs|e] eqn:Hzs;
        [|discriminate].
      injection H as <-.
      destruct (proj1 (IH zs) eq_refl) as (mid & Hmid & Hg).
      exists (y :: mid). rewrite Hmid. split; [reflexivity|].
      cbn [res_map]. now rewrite Hz, Hg.
    + intros (mid & Hm & Hg).
      destruct (f x) as [y|e]; [|discriminate].
      destruct (res_map f l) as [mid'|e] eqn:Hmid; [|discriminate].
      injection Hm as <-. cbn [res_map] in Hg.
      destruct (g y) as [z|e] eqn:Hz; [|discriminate].
      destruct (res_map g mid') as [zs|e] eqn:Hzs; [|discriminate].
      injection Hg as <-.
      unfold res_bind at 1. rewrite Hz.
      rewrite (proj2 (IH zs) (ex_intro _ mid' (conj eq_refl Hzs))).
      reflexivity.
Qed.

(** X12. Registering one more transformer is running it on what the
    pipeline gave before: the new pipeline returns a list of records
    exactly when the old pipeline returns one and the new transformer
    accepts each of its records, and the result is then the old result
    with the new transformer applied to every record. *)
Theorem add_transformer_composes (self : ExportManager) (fn : transformer)
  (data out : list record) :
  _transform (add_transformer self fn) data = Ok out
  <-> exists mid, _transform self data = Ok mid /\ res_map fn mid = Ok out.
Proof.
  rewrite !transform_spec. cbn [add_transformer transformers].
  rewrite <- res_map_compose.
  assert (E : res_map (apply_transformers (transformers self ++ [fn])) data
              = res_map (fun x => res_bind (apply_transformers (transformers self) x) fn)
                  data).
  { apply res_map_ext. intros x _. apply apply_transformers_app. }
  now rewrite E.
Qed.

(** ** The coordinator *)

Section Manager.
Context {P : Platform}.




(** X15. Given no record, the in-memory exports return: the empty array for
    JSON, the empty text for JSON Lines, and for XML the declaration and the
    root element with nothing inside; no transformer is called, so nothing
    is raised, whatever is registered. *)
Theorem exports_of_no_record (self : ExportManager)
  (config : option ExportConfig) (pretty : bool) :
  _transform self [] = Ok []
  /\ export_json self [] config pretty = Ok "[]"
  /\ export_jsonl self [] config = Ok ""
  /\ export_xml self [] config
     = Ok (xml_prolog (config_or config (config_with_format ExportFormat.XML)) "data"
           ++ "</data>").
Proof.
  assert (H : _transform self [] = Ok []).
  { unfold _transform. now destruct (transformers self). }
  split; [exact H|].
  unfold export_json, export_jsonl, export_xml, getvalue.
  split; [|split].
  - unfold bind at 1, lift. rewrite H. unfold JSONExporter_export.
    destruct (truthy (columns _)); destruct pretty; reflexivity.
  - unfold bind at 1, lift. rewrite H. reflexivity.
  - unfold bind at 1, lift. rewrite H.
    unfold XMLExporter_export, xml_prolog, bind, write. cbn [for_rows].
    unfold ret. rewrite !append_assoc. reflexivity.
Qed.

End Manager.

(** ** The settings each writer reads *)

Section Settings.
Context {P : Platform}.

Lemma format_value_settings (c c' : ExportConfig) (v : value) :
  date_format c = date_format c' -> null_value c = null_value c' ->
  format_value c v = format_value c' v.
Proof. intros Hd Hn. destruct v; cbn [format_value]; congruence. Qed.

Lemma xml_cells_settings (c c' : ExportConfig) (row : record)
  (cols : list string) :
  date_format c = date_format c' -> null_value c = null_value c' ->
  forall out, xml_cells c row cols out = xml_cells c' row cols out.
Proof.
  intros Hd Hn. induction cols as [|col cols IH]; intros out; [reflexivity|].
  cbn [xml_cells]. unfold bind, lift.
  rewrite (format_value_settings c c' _ Hd Hn).
  destruct (format_value c' (row_get row col)); [|reflexivity].
  cbn [write]. apply IH.
Qed.

(** X16. What a writer does depends on the configuration only through the
    settings it reads.  The delimited writers read the columns, the labels,
    the delimiter, the header flag, the date pattern and the null token:
    the format (so also [tsv]), the encoding and the batch size change
    nothing.  The JSON writers read the columns only, so neither the date
    pattern nor the null token reaches their output.  The XML writer reads
    the columns, the date pattern, the null token and the encoding. *)
Theorem settings_the_writers_read (c c' : ExportConfig) (data : list record)
  (cols : list string) (pretty : bool) (root_element row_element : string)
  (out : string) :
  columns c = columns c' ->
  (column_labels c = column_labels c' -> delimiter c = delimiter c' ->
   include_header c = include_header c' -> date_format c = date_format c' ->
   null_value c = null_value c' ->
   CSVExporter_export c data out = CSVExporter_export c' data out
   /\ CSVExporter_export_stream c data cols out
      = CSVExporter_export_stream c' data cols out)
  /\ JSONExporter_export c data pretty out = JSONExporter_export c' data pretty out
  /\ JSONExporter_export_jsonl c data out = JSONExporter_export_jsonl c' data out
  /\ (date_format c = date_format c' -> null_value c = null_value c' ->
      encoding c = encoding c' ->
      XMLExporter_export c root_element row_element data out
      = XMLExporter_export c' root_element row_element data out).
Proof.
  intros Hcols.
  split.
  { intros Hl Hdel Hh Hd Hn.
    destruct c, c'. cbn in Hcols, Hl, Hdel, Hh, Hd, Hn. subst.
    split; reflexivity. }
  split.
  { unfold JSONExporter_export, config_columns. now rewrite Hcols. }
  split.
  { unfold JSONExporter_export_jsonl, config_columns. now rewrite Hcols. }
  intros Hd Hn He.
  unfold XMLExporter_export, xml_columns. rewrite Hcols, He.
  unfold bind at 1 2 5 6. cbn [write].
  unfold bind at 1 3.
  rewrite (for_rows_ext _
             (fun row =>
                bind (write ("  <" ++ row_element ++ ">" ++ str1 LF)) (fun _ =>
                bind (xml_cells c' row
                        (or_list (columns c')
                           match data with
                           | [] => []
                           | row0 :: _ => dict_keys row0
                           end)) (fun _ =>
                write ("  </" ++ row_element ++ ">" ++ str1 LF))))).
  - reflexivity.
  - intros row o. unfold bind. cbn [write].
    now rewrite (xml_cells_settings c c' _ _ Hd Hn).
Qed.

End Settings.

(** ** The characters of the JSON outputs *)

Lemma all_chars_app (p : ascii -> bool) (a b : string) :
  all_chars p (a ++ b) = all_chars p a && all_chars p b.
Proof.
  induction a as [|c a IH]; [reflexivity|].
  cbn [String.append all_chars]. now rewrite IH, andb_assoc.
Qed.

Lemma all_chars_join (p : ascii -> bool) (sep : string) (l : list string) :
  all_chars p sep = true ->
  Forall (fun x => all_chars p x = true) l ->
  all_chars p (join sep l) = true.
Proof.
  intros Hsep HF. induction HF as [|a l Ha HF IH]; [reflexivity|].
  destruct l as [|b l']; [exact Ha|].
  rewrite join_cons_cons, !all_chars_app. now rewrite Ha, Hsep, IH.
Qed.

Lemma escape_char_printable (c : ascii) :
  all_chars printable_or_lf (escape_char c) = true.
Proof. each_char c; reflexivity. Qed.

Lemma encode_string_printable (s : string) :
  all_chars printable_or_lf (encode_string s) = true.
Proof.
  unfold encode_string. cbn [all_chars String.append].
  change (printable_or_lf DQUOTE) with true. cbn [andb].
  rewrite all_chars_app.
  change (all_chars printable_or_lf (str1 DQUOTE)) with true.
  rewrite andb_true_r.
  induction s as [|c s IH]; [reflexivity|].
  cbn [escape_chars]. now rewrite all_chars_app, escape_char_printable, IH.
Qed.

Lemma uint_digits_printable (u : Decimal.uint) :
  all_chars printable_or_lf (NilEmpty.string_of_uint u) = true.
Proof. induction u; cbn; assumption || reflexivity. Qed.

Lemma str_of_int_printable (z : Z) :
  all_chars printable_or_lf (str_of_int z) = true.
Proof.
  destruct (str_of_int_cases z) as [[-> E]|[(p & -> & E)|(p & -> & E)]]; rewrite E.
  - reflexivity.
  - apply uint_digits_printable.
  - cbn [all_chars]. change (printable_or_lf "-") with true.
    apply uint_digits_printable.
Qed.

Lemma newline_indent_printable (indent : option nat) (level : nat) :
  all_chars printable_or_lf (newline_indent indent level) = true.
Proof.
  destruct indent as [n|]; [|reflexivity].
  cbn [newline_indent all_chars]. change (printable_or_lf LF) with true.
  cbn [andb]. unfold spaces.
  induction (n * level) as [|k IH]; [reflexivity | exact IH].
Qed.

Lemma item_separator_printable (indent : option nat) (level : nat) :
  all_chars printable_or_lf (item_separator indent level) = true.
Proof.
  destruct indent as [n|]; [|reflexivity].
  cbn [item_separator String.append all_chars].
  change (printable_or_lf ",") with true.
  apply (newline_indent_printable (Some n)).
Qed.

Lemma json_text_printable (v : value) :
  forall indent level,
    all_chars printable_or_lf (json_text indent level v) = true.
Proof.
  induction v as [ |b|z|s|d|l IH|d IH|text] using value_ind; intros indent level.
  - reflexivity.
  - destruct b; reflexivity.
  - apply str_of_int_printable.
  - apply encode_string_printable.
  - apply encode_string_printable.
  - destruct l as [|x l']; [reflexivity|].
    cbn [json_text]. rewrite !all_chars_app.
    rewrite !newline_indent_printable.
    rewrite all_chars_join; [reflexivity|apply item_separator_printable|].
    apply Forall_map. eapply Forall_impl; [|exact IH]. intros a Ha. apply Ha.
  - destruct d as [|kv d']; [reflexivity|].
    cbn [json_text]. rewrite !all_chars_app.
    rewrite !newline_indent_printable.
    rewrite all_chars_join; [reflexivity|apply item_separator_printable|].
    apply Forall_map. eapply Forall_impl; [|exact IH]. intros [k x] Ha.
    cbn [snd] in Ha. rewrite !all_chars_app.
    now rewrite encode_string_printable, Ha.
  - apply encode_string_printable.
Qed.

(** X17. The JSON writers write ASCII only: every character they add to the
    sink is a printable ASCII character or a line feed, whatever characters
    the keys and the values of the records hold (those outside the range are
    written as escapes). *)
Theorem json_outputs_are_ascii (config : ExportConfig) (data : list record)
  (pretty : bool) :
  all_chars printable_or_lf (snd (JSONExporter_export config data pretty ""))
  = true
  /\ all_chars printable_or_lf (snd (JSONExporter_export_jsonl config data ""))
     = true.
Proof.
  split.
  - change (snd (JSONExporter_export config data pretty ""))
      with (json_text (if pretty then Some 2 else None) 0
              (records_value (json_rows config data))).
    apply json_text_printable.
  - unfold JSONExporter_export_jsonl. unfold bind at 1.
    rewrite (for_rows_writes _
               (fun row =>
                  json_text None 0
                    (VDict (if truthy (columns config)
                            then filter_row (config_columns config) row
                            else row)) ++ str1 LF)).
    + unfold ret. cbn [snd String.append].
      induction data as [|row rest IH]; [reflexivity|].
      cbn [map cat fold_right]. rewrite !all_chars_app.
      rewrite json_text_printable. cbn [andb].
      change (all_chars printable_or_lf (str1 LF)) with true. cbn [andb].
      exact IH.
    + intros row o _. reflexivity.
Qed.

(** ** Reading back the delimited output *)

Section ReadBack.
Variable d : ascii.
Hypothesis Hd : plain_delimiter d = true.

Let w : writer := {| w_delimiter := d |}.

Lemma delimiter_facts :
  Ascii.eqb d DQUOTE = false /\ Ascii.eqb d CR = false /\ Ascii.eqb d LF = false.
Proof.
  unfold plain_delimiter in Hd.
  apply andb_true_iff in Hd as [H Hlf]. apply andb_true_iff in H as [Hq Hcr].
  repeat split; now apply negb_true_iff.
Qed.

Lemma step_delimiter (st : state) :
  st = FieldStart \/ st = InField \/ st = QuoteSeen \/ st = RecordStart ->
  step d st d = EndField FieldStart.
Proof.
  destruct delimiter_facts as (Hq & Hcr & Hlf).
  intros [-> | [-> | [-> | ->]]]; cbn [step]; unfold step_record_start, step_field_start;
    now rewrite ?Hq, ?Hcr, ?Hlf, ?Ascii.eqb_refl.
Qed.

Lemma step_cr (st : state) :
  st = FieldStart \/ st = InField \/ st = QuoteSeen ->
  step d st CR = EndRecord AfterCR.
Proof.
  destruct delimiter_facts as (Hq & Hcr & Hlf).
  intros [-> | [-> | ->]]; cbn [step]; unfold step_field_start;
    change (Ascii.eqb CR CR) with true; change (Ascii.eqb CR DQUOTE) with false;
    cbv iota; try reflexivity.
  rewrite Ascii.eqb_sym, Hcr. reflexivity.
Qed.

(** A character that does not make the writer quote is added to the field
    being read. *)
Lemma step_plain (st : state) (c : ascii) :
  special w c = false ->
  st = FieldStart \/ st = InField \/ st = RecordStart ->
  step d st c = Append InField.
Proof.
  unfold special. cbn [w_delimiter w]. intros H.
  apply orb_false_elim in H as [H Hlf]. apply orb_false_elim in H as [H Hcr].
  apply orb_false_elim in H as [Hdel Hq].
  intros [-> | [-> | ->]]; cbn [step]; unfold step_record_start, step_field_start;
    now rewrite ?Hq, ?Hcr, ?Hlf, ?Hdel.
Qed.

Lemma read_plain_run (f : string) :
  needs_quotes w f = false ->
  forall acc fields rest,
    read d InField acc fields (f ++ rest) = read d InField (acc ++ f) fields rest.
Proof.
  induction f as [|c f IH]; intros H acc fields rest.
  - now rewrite append_nil_r.
  - cbn [needs_quotes] in H. apply orb_false_elim in H as [Hc Hf].
    cbn [String.append read]. rewrite (step_plain InField c Hc) by tauto.
    rewrite (IH Hf). now rewrite append_assoc.
Qed.

Lemma read_quoted_run (f : string) :
  forall acc fields rest,
    read d InQuoted acc fields (double_quotes f ++ String DQUOTE rest)
    = read d QuoteSeen (acc ++ f) fields rest.
Proof.
  induction f as [|c f IH]; intros acc fields rest.
  - cbn [double_quotes String.append read step].
    change (Ascii.eqb DQUOTE DQUOTE) with true. cbv iota.
    now rewrite append_nil_r.
  - cbn [double_quotes]. destruct (Ascii.eqb_spec c DQUOTE) as [->|Hc].
    + cbn [String.append read step].
      change (Ascii.eqb DQUOTE DQUOTE) with true. cbv iota.
      cbn [read step]. change (Ascii.eqb DQUOTE DQUOTE) with true. cbv iota.
      rewrite IH. now rewrite append_assoc.
    + cbn [String.append read step].
      apply Ascii.eqb_neq in Hc. rewrite Hc.
      rewrite IH. now rewrite append_assoc.
Qed.

(** Reading one written field from the start of a field: the reader is
    left, with the field read, in a state where a delimiter ends the field
    and a carriage return ends the record. *)
Lemma read_field (f : string) (fields : list string) (rest : string) :
  exists st,
    (st = FieldStart \/ st = InField \/ st = QuoteSeen)
    /\ (st = FieldStart -> f = "")
    /\ read d FieldStart "" fields (csv_field w f ++ rest)
       = read d st f fields rest.
Proof.
  unfold csv_field. destruct (needs_quotes w f) eqn:Hq.
  - exists QuoteSeen. split; [tauto|]. split; [discriminate|].
    cbn [String.append read step]. unfold step_field_start.
    change (Ascii.eqb DQUOTE CR) with false.
    change (Ascii.eqb DQUOTE LF) with false.
    change (Ascii.eqb DQUOTE DQUOTE) with true. cbv iota.
    rewrite append_assoc. cbn [str1 String.append].
    now rewrite read_quoted_run.
  - destruct f as [|c f].
    + exists FieldStart. split; [tauto|]. split; reflexivity.
    + exists InField. split; [tauto|]. split; [discriminate|].
      cbn [needs_quotes] in Hq. apply orb_false_elim in Hq as [Hc Hf].
      cbn [String.append read]. rewrite (step_plain FieldStart c Hc) by tauto.
      now rewrite (read_plain_run f Hf).
Qed.

(** The fields of a record after a delimiter, and the line end. *)
Lemma read_fields (fs : list string) :
  fs <> [] ->
  forall fields rest,
    read d FieldStart "" fields
      (join (str1 d) (map (csv_field w) fs) ++ lineterminator ++ rest)
    = (fields ++ fs)%list :: read d RecordStart "" [] rest.
Proof.
  induction fs as [|f fs IH]; [congruence|]. intros _ fields rest.
  destruct fs as [|g fs'].
  - cbn [map join].
    destruct (read_field f fields (lineterminator ++ rest)) as (st & Hst & _ & ->).
    unfold lineterminator. cbn [String.append read].
    rewrite (step_cr st Hst). cbn [read step].
    change (Ascii.eqb LF LF) with true. cbv iota. reflexivity.
  - change (map (csv_field w) (f :: g :: fs'))
      with (csv_field w f :: map (csv_field w) (g :: fs')).
    change (map (csv_field w) (g :: fs'))
      with (csv_field w g :: map (csv_field w) fs') at 1.
    rewrite join_cons_cons.
    change (csv_field w g :: map (csv_field w) fs')
      with (map (csv_field w) (g :: fs')).
    rewrite !append_assoc.
    destruct (read_field f fields
                (str1 d ++ join (str1 d) (map (csv_field w) (g :: fs'))
                 ++ lineterminator ++ rest)) as (st & Hst & _ & ->).
    cbn [str1 String.append read].
    rewrite (step_delimiter st) by tauto.
    rewrite IH by discriminate.
    now rewrite <- app_assoc.
Qed.

(** The record of a single empty field, written as a pair of quotes. *)
Lemma read_single_empty (rest : string) :
  read d RecordStart "" []
    (String DQUOTE (str1 DQUOTE) ++ lineterminator ++ rest)
  = [""] :: read d RecordStart "" [] rest.
Proof.
  unfold lineterminator. cbn [String.append str1 read].
  change (step d RecordStart DQUOTE) with (Skip InQuoted). cbv iota.
  cbn [read]. change (step d InQuoted DQUOTE) with (Skip QuoteSeen). cbv iota.
  cbn [read]. rewrite (step_cr QuoteSeen) by tauto.
  cbn [read step]. change (Ascii.eqb LF LF) with true. reflexivity.
Qed.

(** One written line is read back as the record it was written from. *)
Lemma read_record (cells : list string) (rest : string) :
  read d RecordStart "" [] (csv_record w cells ++ lineterminator ++ rest)
  = cells :: read d RecordStart "" [] rest.
Proof.
  destruct delimiter_facts as (Hq & Hcr & Hlf).
  destruct cells as [|f fs].
  - reflexivity.
  - assert (Hgen : read d RecordStart "" []
                     (join (str1 d) (map (csv_field w) (f :: fs))
                      ++ lineterminator ++ rest)
                   = read d FieldStart "" []
                       (join (str1 d) (map (csv_field w) (f :: fs))
                        ++ lineterminator ++ rest)
                   \/ (f = "" /\ fs = [])).
    { destruct fs as [|g fs'].
      - cbn [map join]. unfold csv_field.
        destruct (needs_quotes w f) eqn:Hn.
        + left. reflexivity.
        + destruct f as [|c f]; [right; now split|]. left.
          cbn [needs_quotes] in Hn. apply orb_false_elim in Hn as [Hc _].
          cbn [String.append read].
          now rewrite (step_plain RecordStart c Hc), (step_plain FieldStart c Hc)
            by tauto.
      - left.
        change (map (csv_field w) (f :: g :: fs'))
          with (csv_field w f :: map (csv_field w) (g :: fs')).
        change (map (csv_field w) (g :: fs'))
          with (csv_field w g :: map (csv_field w) fs').
        rewrite !join_cons_cons. rewrite !append_assoc.
        generalize (join (str1 d) (csv_field w g :: map (csv_field w) fs')
                    ++ lineterminator ++ rest).
        intros tail. unfold csv_field.
        destruct (needs_quotes w f) eqn:Hn.
        + reflexivity.
        + destruct f as [|c f].
          * cbn [str1 String.append read].
            now rewrite !step_delimiter by tauto.
          * cbn [needs_quotes] in Hn. apply orb_false_elim in Hn as [Hc _].
            cbn [String.append read].
            now rewrite (step_plain RecordStart c Hc), (step_plain FieldStart c Hc)
              by tauto. }
    destruct Hgen as [Hgen|[-> ->]].
    + assert (Hrec : csv_record w (f :: fs)
                     = join (str1 d) (map (csv_field w) (f :: fs))
                       \/ (f = "" /\ fs = [])).
      { destruct f as [|c f]; [|now left].
        destruct fs; [right; now split | now left]. }
      destruct Hrec as [->|[-> ->]].
      * rewrite Hgen. now rewrite read_fields by discriminate.
      * apply read_single_empty.
    + apply read_single_empty.
Qed.

(** The lines of a table are read back as the table. *)
Lemma read_lines (table : list (list string)) :
  csv_reader d (csv_lines w table) = table.
Proof.
  unfold csv_reader, csv_lines.
  induction table as [|cells table IH]; [reflexivity|].
  cbn [map cat fold_right]. rewrite append_assoc.
  rewrite read_record. f_equal. exact IH.
Qed.

End ReadBack.

Section DelimitedReadBack.
Context {P : Platform}.

(** X18. What the buffered delimited writer writes is read back by the
    reader of the [csv] module, with the same delimiter, as the rows it was
    written from: the labels of the columns first, when the header is on,
    then for each record the formatted cells, each cell exactly as
    formatted, whatever delimiters, quotes or line ends it holds.  The
    delimiter must be one character other than the quote, the carriage
    return and the line feed, and every cell must format. *)
Theorem csv_export_reads_back (config : ExportConfig) (row0 : record)
  (rest : list record) (d : ascii) (table : list (list string)) :
  delimiter config = str1 d ->
  plain_delimiter d = true ->
  res_map (fun row => format_row config row (csv_columns config row0))
          (row0 :: rest) = Ok table ->
  csv_reader d (snd (CSVExporter_export config (row0 :: rest) ""))
  = ((if include_header config
      then [labels_of config (csv_columns config row0)]
      else []) ++ table)%list.
Proof.
  intros Hdel Hd Htable.
  rewrite (CSVExporter_export_text config row0 rest d table "" Hdel Htable).
  cbn [snd String.append].
  fold (csv_lines {| w_delimiter := d |} table).
  destruct (include_header config).
  - unfold csv_reader. rewrite append_assoc.
    rewrite (read_record d Hd). cbn [app]. f_equal.
    apply (read_lines d Hd).
  - cbn [String.append app]. apply (read_lines d Hd).
Qed.

End DelimitedReadBack.

Section StreamText.
Context {P : Platform}.

(** X19. When every cell formats, the streaming delimited writer writes the
    header line (when the header is on) and then one line per row it is
    given, in order, made of the cells of the columns the caller passed,
    and returns the number of rows; the reader of the [csv] module reads
    the text back as the labels and the formatted rows. *)
Theorem stream_export_text (config : ExportConfig) (data : list record)
  (cols : list string) (d : ascii) (table : list (list string)) (out : string) :
  delimiter config = str1 d ->
  res_map (fun row => format_row config row cols) data = Ok table ->
  CSVExporter_export_stream config data cols out
  = (Ok (result_ok (List.length data)),
     out ++ csv_header config {| w_delimiter := d |} cols
         ++ csv_lines {| w_delimiter := d |} table)
  /\ (plain_delimiter d = true ->
      csv_reader d (csv_header config {| w_delimiter := d |} cols
                    ++ csv_lines {| w_delimiter := d |} table)
      = ((if include_header config then [labels_of config cols] else [])
         ++ table)%list).
Proof.
  intros Hdel Htable. split.
  - unfold CSVExporter_export_stream. rewrite Hdel.
    unfold bind at 1. cbn [lift csv_writer str1].
    unfold bind at 1. unfold csv_header, csv_lines.
    destruct (include_header config); cbn [when].
    + unfold writerow at 1, write at 1. unfold bind at 1.
      rewrite (for_rows_csv _ _ _ _ table 0 _ Htable).
      cbn [ret Nat.add]. now rewrite !append_assoc.
    + unfold ret at 1. unfold bind at 1.
      rewrite (for_rows_csv _ _ _ _ table 0 _ Htable).
      cbn [ret Nat.add]. reflexivity.
  - intros Hd. unfold csv_header. destruct (include_header config).
    + unfold csv_reader. rewrite append_assoc.
      rewrite (read_record d Hd). cbn [app]. f_equal.
      apply (read_lines d Hd).
    + cbn [String.append app]. apply (read_lines d Hd).
Qed.

End StreamText.

(** ** The further properties, evaluated *)

(** A column the record has no field for gives the null token. *)
Lemma format_row_cells_witness :
  exists cell,
    nth_error ["1"; ""] 1 = Some cell
    /\ format_value (P := reference_platform) default_config
         (row_get [("id", VInt 1)] "name") = Ok cell
    /\ (dict_get [("id", VInt 1)] "name" = None -> cell = null_value default_config).
Proof.
  destruct (format_row_cells (P := reference_platform) default_config
              [("id", VInt 1)] [("id", VInt 1)] ["id"; "name"]) as [H _].
  destruct (H ["1"; ""] eq_refl) as [_ Hcells].
  exact (Hcells 1 "name" eq_refl).
Defined.

(** A delimiter of two characters. *)
Lemma bad_delimiter_raises_witness :
  export_csv (P := reference_platform) new_manager alice_bob
    (Some (set_delimiter default_config "ab"))
  = Raise TypeError.
Proof.
  destruct (bad_delimiter_raises (P := reference_platform)
              (set_delimiter default_config "ab")
              [("id", VInt 1); ("name", VStr "Alice")]
              [[("id", VInt 2); ("name", VStr "Bob")]] [] [] "")
    as (_ & _ & _ & H).
  - cbn. discriminate.
  - exact H.
Defined.

(** A first row that formats and a second one that does not. *)
Lemma stream_keeps_rows_before_failure_witness :
  CSVExporter_export_stream (P := reference_platform) default_config
    ([[("id", VInt 1); ("when", VNone)]] ++ unencodable_row :: alice_bob)
    ["id"; "when"] ""
  = (Raise TypeError, "id,when" ++ lineterminator ++ "1," ++ lineterminator).
Proof.
  exact (proj1 (stream_keeps_rows_before_failure (P := reference_platform)
                  default_config ["id"; "when"]
                  [[("id", VInt 1); ("when", VNone)]] unencodable_row alice_bob
                  "," [["1"; ""]] TypeError "" eq_refl eq_refl eq_refl)).
Defined.



(** The format [tsv] does not change the delimiter: the text is the one of
    the default configuration, with commas. *)
Lemma settings_the_writers_read_witness :
  CSVExporter_export (P := reference_platform)
    (config_with_format ExportFormat.TSV) alice_bob ""
  = CSVExporter_export (P := reference_platform) default_config alice_bob "".
Proof.
  destruct (settings_the_writers_read (P := reference_platform)
              (config_with_format ExportFormat.TSV) default_config
              alice_bob [] false "data" "row" "" eq_refl)
    as (H & _).
  exact (proj1 (H eq_refl eq_refl eq_refl eq_refl eq_refl)).
Defined.

(** Values with a delimiter, a line feed and a quote, an empty value and a
    null: the rows are read back as formatted. *)
Lemma csv_export_reads_back_witness :
  csv_reader ","
    (snd (CSVExporter_export (P := reference_platform) default_config
            tricky_rows ""))
  = [ ["id"; "note"];
      ["7"; "a,b" ++ str1 LF ++ "c" ++ str1 DQUOTE ++ "d"];
      [""; ""] ].
Proof.
  exact (csv_export_reads_back (P := reference_platform) default_config
           [("id", VInt 7);
            ("note", VStr ("a,b" ++ str1 LF ++ "c" ++ str1 DQUOTE ++ "d"))]
           [[("id", VNone); ("note", VStr "")]] ","
           [["7"; "a,b" ++ str1 LF ++ "c" ++ str1 DQUOTE ++ "d"]; [""; ""]]
           eq_refl eq_refl eq_refl).
Defined.

(** The streaming writer on the records of the scenario. *)
Lemma stream_export_text_witness :
  CSVExporter_export_stream (P := reference_platform) default_config alice_bob
    ["name"; "id"] ""
  = (Ok (result_ok 2),
     "name,id" ++ lineterminator ++ "Alice,1" ++ lineterminator
     ++ "Bob,2" ++ lineterminator).
Proof.
  exact (proj1 (stream_export_text (P := reference_platform) default_config
                  alice_bob ["name"; "id"] "," [["Alice"; "1"]; ["Bob"; "2"]] ""
                  eq_refl eq_refl)).
Defined.

(** ** An XML export that fails *)

Section XmlFailure.
Context {P : Platform}.

(** The cells loop stops at the first cell that does not format; the
    children of the columns before it are written. *)
Lemma xml_cells_raise (config : ExportConfig) (row : record)
  (cpre : list string) (cbad : string) (cpost : list string) (e : exn) :
  forall (cells : list string) (out : string),
    format_row config row cpre = Ok cells ->
    format_value config (row_get row cbad) = Raise e ->
    xml_cells config row (cpre ++ cbad :: cpost) out
    = (Raise e, out ++ cat (map xml_cell_text (combine cpre cells))).
Proof.
  unfold format_row.
  induction cpre as [|col cpre IH]; intros cells out Hpre Hbad; cbn in Hpre.
  - injection Hpre as <-. cbn [app xml_cells]. unfold bind, lift.
    rewrite Hbad. cbn. now rewrite append_nil_r.
  - destruct (format_value config (row_get row col)) as [v|e'] eqn:Hv; [|discriminate].
    destruct (res_map _ cpre) as [vs|e'] eqn:Hvs; [|discriminate].
    injection Hpre as <-. cbn [app xml_cells].
    unfold bind at 1. unfold lift at 1. rewrite Hv.
    unfold bind at 1. unfold write at 1.
    rewrite (IH vs _ eq_refl Hbad).
    cbn [combine map cat fold_right xml_cell_text].
    now rewrite !append_assoc.
Qed.

(** X5. When a cell does not format, the XML writer raises the exception of
    that cell and leaves an unfinished document in the sink: the
    declaration and the root tag, the complete row elements of the records
    before, the opening tag of the failing row and the children of its
    columns before the failing one.  The row and the root are not closed. *)
Theorem xml_keeps_text_before_failure (config : ExportConfig)
  (root_element row_element : string) (pre : list record) (bad : record)
  (post : list record) (cpre : list string) (cbad : string)
  (cpost : list string) (table : list (list string)) (cells : list string)
  (e : exn) (out : string) :
  xml_columns config (pre ++ bad :: post) = (cpre ++ cbad :: cpost)%list ->
  res_map (fun row => format_row config row (cpre ++ cbad :: cpost)) pre
  = Ok table ->
  format_row config bad cpre = Ok cells ->
  format_value config (row_get bad cbad) = Raise e ->
  XMLExporter_export config root_element row_element (pre ++ bad :: post) out
  = (Raise e,
     out ++ xml_prolog config root_element
         ++ cat (map (xml_row_text row_element (cpre ++ cbad :: cpost)) table)
         ++ "  <" ++ row_element ++ ">" ++ str1 LF
         ++ cat (map xml_cell_text (combine cpre cells))).
Proof.
  intros Hcols Hpre Hcells Hbad.
  unfold XMLExporter_export. rewrite Hcols. clear Hcols.
  unfold bind at 1. unfold write at 1.
  unfold bind at 1. unfold write at 1.
  unfold bind at 1.
  assert (Hloop : forall n o,
             for_rows
               (fun row =>
                  bind (write ("  <" ++ row_element ++ ">" ++ str1 LF)) (fun _ =>
                  bind (xml_cells config row (cpre ++ cbad :: cpost)) (fun _ =>
                  write ("  </" ++ row_element ++ ">" ++ str1 LF))))
               (pre ++ bad :: post) n o
             = (Raise e,
                o ++ cat (map (xml_row_text row_element (cpre ++ cbad :: cpost)) table)
                  ++ "  <" ++ row_element ++ ">" ++ str1 LF
                  ++ cat (map xml_cell_text (combine cpre cells)))).
  { revert table Hpre. induction pre as [|row pre IH]; intros table Hpre n o;
      cbn in Hpre.
    - injection Hpre as <-. cbn [app for_rows].
      unfold bind at 1. unfold bind at 1. unfold write at 1.
      unfold bind at 1.
      rewrite (xml_cells_raise config bad cpre cbad cpost e cells _ Hcells Hbad).
      cbn [map cat fold_right]. rewrite !append_assoc. reflexivity.
    - destruct (format_row config row (cpre ++ cbad :: cpost)) as [cs|e'] eqn:Hrow;
        [|discriminate].
      destruct (res_map _ pre) as [table'|e'] eqn:Hrest; [|discriminate].
      injection Hpre as <-. cbn [app for_rows].
      unfold bind at 1. unfold bind at 1. unfold write at 1.
      unfold bind at 1.
      rewrite (xml_cells_text config row _ cs _ Hrow).
      unfold write at 1.
      rewrite (IH table' eq_refl).
      cbn [map cat fold_right]. unfold xml_row_text.
      now rewrite !append_assoc. }
  rewrite Hloop. unfold xml_prolog. now rewrite !append_assoc.
Qed.

End XmlFailure.

(** An XML export whose second record has a value that does not format. *)
Lemma xml_keeps_text_before_failure_witness :
  XMLExporter_export (P := reference_platform)
    (config_with_format ExportFormat.XML) "data" "row"
    ([[("id", VInt 1); ("when", VNone)]] ++ unencodable_row :: alice_bob) ""
  = (Raise TypeError,
     xml_prolog (config_with_format ExportFormat.XML) "data"
     ++ "  <row>" ++ str1 LF
     ++ "    <id>1</id>" ++ str1 LF
     ++ "    <when></when>" ++ str1 LF
     ++ "  </row>" ++ str1 LF
     ++ "  <row>" ++ str1 LF
     ++ "    <id>3</id>" ++ str1 LF).
Proof.
  exact (xml_keeps_text_before_failure (P := reference_platform)
           (config_with_format ExportFormat.XML) "data" "row"
           [[("id", VInt 1); ("when", VNone)]] unencodable_row alice_bob
           ["id"] "when" [] [["1"; ""]] ["3"] TypeError ""
           eq_refl eq_refl eq_refl eq_refl).
Defined.
